(** * acquire.outputs.base: the [Output] base class

    A shallow embedding of [src/acquire/outputs/base.py].  The Python
    methods are functions in a state-and-exception monad: the state holds
    the attributes of the concrete output object, the file-like objects
    that are alive, and a ghost trace of the calls made to [self.write]. *)

From Stdlib Require Import ZArith Strings.String Strings.Byte.
From stdpp Require Import base option list strings.

Local Open Scope Z_scope.

(** ** Python values the module handles *)

(** [bytes] objects. *)
Definition bytes := list byte.

(** [len(buf)] is an unbounded Python integer. *)
Definition len (buf : bytes) : Z := Z.of_nat (length buf).

(** *** Exceptions *)

(** The exception classes that occur in the module or in the built-in
    failures of the statements it runs, and [Custom] for a class defined
    elsewhere, with its base class. *)
Inductive exc_class : Type :=
  | BaseException
  | Exception
  | OSError
  | PermissionError
  | FileNotFoundError
  | AttributeError
  | ValueError
  | RuntimeError
  | NotImplementedError
  | Custom (name : string) (base : exc_class).

#[global] Instance exc_class_eq : EqDecision exc_class.
Proof. intros c d. unfold Decision. decide equality. apply String.string_dec. Defined.

(** Method resolution order: the class followed by its bases. *)
Fixpoint mro (c : exc_class) : list exc_class :=
  match c with
  | BaseException => [BaseException]
  | Exception => [Exception; BaseException]
  | OSError => [OSError; Exception; BaseException]
  | PermissionError => [PermissionError; OSError; Exception; BaseException]
  | FileNotFoundError => [FileNotFoundError; OSError; Exception; BaseException]
  | AttributeError => [AttributeError; Exception; BaseException]
  | ValueError => [ValueError; Exception; BaseException]
  | RuntimeError => [RuntimeError; Exception; BaseException]
  | NotImplementedError =>
      [NotImplementedError; RuntimeError; Exception; BaseException]
  | Custom name base => Custom name base :: mro base
  end.

Definition class_name (c : exc_class) : string :=
  match c with
  | BaseException => "BaseException"
  | Exception => "Exception"
  | OSError => "OSError"
  | PermissionError => "PermissionError"
  | FileNotFoundError => "FileNotFoundError"
  | AttributeError => "AttributeError"
  | ValueError => "ValueError"
  | RuntimeError => "RuntimeError"
  | NotImplementedError => "NotImplementedError"
  | Custom name _ => name
  end.

(** An exception instance. *)
Record exception : Type := mk_exception {
  exc_type : exc_class;
  exc_msg : string
}.

Definition issubclass (c d : exc_class) : bool := bool_decide (d ∈ mro c).

Definition isinstance (e : exception) (c : exc_class) : bool :=
  issubclass (exc_type e) c.

(** The result of running a statement or a call. *)
Inductive outcome (A : Type) : Type :=
  | Normal (a : A)
  | Raised (e : exception).
Arguments Normal {A} a.
Arguments Raised {A} e.

(** *** File-like objects and entries *)

(** A binary stream ([BinaryIO]): an [io.BytesIO] or the object returned
    by [entry.open()]. *)
Record fileobj : Type := mk_fileobj {
  f_data : bytes;
  f_pos : nat;
  f_closed : bool
}.

(** A stream just created over [data]. *)
Definition fresh_stream (data : bytes) : fileobj :=
  {| f_data := data; f_pos := 0%nat; f_closed := false |}.

(** What [fh.read()] would return. *)
Definition remaining (f : fileobj) : bytes := drop (f_pos f) (f_data f).

(** [fh.close()]; closing twice is allowed. *)
Definition fileobj_close (f : fileobj) : fileobj :=
  {| f_data := f_data f; f_pos := f_pos f; f_closed := true |}.

(** The object behind [entry]: a [FilesystemEntry] or a [Path].  The
    module is duck typed and touches two attributes only, [entry.path]
    and [entry.open()]; [None] here is an attribute the object lacks.
    [attr_open] gives what calling [open()] does: it returns a stream
    over some content or raises. *)
Record entry_obj : Type := mk_entry {
  attr_path : option string;
  attr_open : option (outcome bytes)
}.

(** A [FilesystemEntry] has both attributes. *)
Definition FilesystemEntry (path : string) (opened : outcome bytes) : entry_obj :=
  {| attr_path := Some path; attr_open := Some opened |}.

(** [acquire.utils.VolatileStream] is not part of this file: what its
    constructor and its [read()] do is taken from the environment. *)
Record VolatileStream : Type := mk_volatile {
  vs_read : outcome bytes
}.

(** ** The state *)

(** One call of [self.write], as the callee receives it. *)
Record write_call : Type := mk_call {
  wc_output_path : string;
  wc_fh : nat;
  wc_stream : fileobj;
  wc_entry : option entry_obj;
  wc_size : option Z
}.

Section OutputClass.

(** [σ]: the attributes of the concrete output object. *)
Context {σ : Type}.

Record world : Type := mk_world {
  w_self : σ;
  w_files : list fileobj;
  w_volatile : string -> outcome VolatileStream;
  w_calls : list write_call
}.

(** The monad of method bodies. *)
Definition M (A : Type) : Type := world -> outcome A * world.

Definition ret {A} (a : A) : M A := fun w => (Normal a, w).

Definition raise {A} (e : exception) : M A := fun w => (Raised e, w).

Definition bind {A B} (m : M A) (k : A -> M B) : M B :=
  fun w =>
    match m w with
    | (Normal a, w') => k a w'
    | (Raised e, w') => (Raised e, w')
    end.

(** [try: body  except ...: handler]; [handler e = None] when no except
    clause matches [e]. *)
Definition try_except {A} (body : M A) (handler : exception -> option (M A)) : M A :=
  fun w =>
    match body w with
    | (Normal a, w') => (Normal a, w')
    | (Raised e, w') =>
        match handler e with
        | Some h => h w'
        | None => (Raised e, w')
        end
    end.

End OutputClass.

Arguments world : clear implicits.
Arguments M : clear implicits.

Declare Scope py_scope.
Delimit Scope py_scope with py.
Notation "'let*' x ':=' c 'in' k" := (bind c (fun x => k))
  (at level 10, x pattern, c at level 100, k at level 200) : py_scope.
Local Open Scope py_scope.

(** ** The class *)

Section Methods.

(** [σ]: the attributes of the concrete output object.  [Target]:
    [dissect.target.Target], never inspected here. *)
Context {σ Target : Type}.

(** The methods a subclass overrides.  The primitive [write] works on the
    attributes of the object and on the stream it is handed, which it may
    read or close. *)
Record methods : Type := mk_methods {
  init_impl : Target -> σ -> outcome unit * σ;
  write_impl :
    string -> fileobj -> option entry_obj -> option Z -> σ ->
    outcome unit * fileobj * σ;
  close_impl : σ -> outcome unit * σ
}.

(** *** Statements shared by the method bodies *)

(** A new file-like object; the result is the reference to it. *)
Definition alloc_file (f : fileobj) : M σ nat :=
  fun w =>
    (Normal (length (w_files w)),
     {| w_self := w_self w; w_files := w_files w ++ [f];
        w_volatile := w_volatile w; w_calls := w_calls w |}).

(** [io.BytesIO(data)] *)
Definition BytesIO (data : bytes) : M σ nat := alloc_file (fresh_stream data).

Definition no_attribute (name : string) : exception :=
  {| exc_type := AttributeError; exc_msg := "object has no attribute " ++ name |}.

(** [entry.path] *)
Definition getattr_path (entry : option entry_obj) : M σ string :=
  match entry with
  | None => raise (no_attribute "path")
  | Some o =>
      match attr_path o with
      | Some p => ret p
      | None => raise (no_attribute "path")
      end
  end.

(** [entry.open()] *)
Definition entry_open (entry : option entry_obj) : M σ nat :=
  match entry with
  | None => raise (no_attribute "open")
  | Some o =>
      match attr_open o with
      | Some (Normal data) => alloc_file (fresh_stream data)
      | Some (Raised e) => raise e
      | None => raise (no_attribute "open")
      end
  end.

(** [fh.__exit__(...)] of a file object: it closes the file and does not
    suppress the exception in flight. *)
Definition file_exit (fh : nat) : M σ unit :=
  fun w =>
    (Normal tt,
     {| w_self := w_self w; w_files := alter fileobj_close fh (w_files w);
        w_volatile := w_volatile w; w_calls := w_calls w |}).

(** [try: body  finally: fin] *)
Definition try_finally {A} (body : M σ A) (fin : M σ unit) : M σ A :=
  fun w =>
    let '(r, w') := body w in
    match fin w' with
    | (Normal _, w'') => (r, w'')
    | (Raised e, w'') => (Raised e, w'')
    end.

(** [with expr as fh: body], for a file object ([__enter__] returns the
    object itself). *)
Definition with_as {A} (expr : M σ nat) (body : nat -> M σ A) : M σ A :=
  let* fh := expr in
  try_finally (body fh) (file_exit fh).

(** [pathlib.Path(p)] *)
Definition Path (p : string) : string := p.

(** [acquire.utils.VolatileStream(path)] *)
Definition VolatileStream_new (path : string) : M σ VolatileStream :=
  fun w => (w_volatile w path, w).

(** [fh.read()] on a [VolatileStream] *)
Definition VolatileStream_read (fh : VolatileStream) : M σ bytes :=
  fun w => (vs_read fh, w).

(** [size or n] for [size : Optional[int]]: [None] and [0] are falsy. *)
Definition size_or (size : option Z) (n : Z) : Z :=
  match size with
  | Some s => if s =? 0 then n else s
  | None => n
  end.

(** [except (OSError, PermissionError)] *)
Definition except_OSError_PermissionError (e : exception) : bool :=
  isinstance e OSError || isinstance e PermissionError.

(** *** Method calls on [self] *)

Definition call_init (self : methods) (target : Target) : M σ unit :=
  fun w =>
    let '(r, s') := init_impl self target (w_self w) in
    (r, {| w_self := s'; w_files := w_files w;
           w_volatile := w_volatile w; w_calls := w_calls w |}).

(** [self.write(output_path, fh, entry, size)]: the call is appended to
    the trace, then the primitive of the object runs on the stream [fh]
    refers to.  A reference outside [w_files] does not occur in Python;
    the methods below create the stream before they call. *)
Definition call_write (self : methods) (output_path : string) (fh : nat)
    (entry : option entry_obj) (size : option Z) : M σ unit :=
  fun w =>
    match w_files w !! fh with
    | Some f =>
        let '(r, f', s') := write_impl self output_path f entry size (w_self w) in
        (r, {| w_self := s'; w_files := <[fh := f']> (w_files w);
               w_volatile := w_volatile w;
               w_calls := w_calls w ++ [mk_call output_path fh f entry size] |})
    | None =>
        (Raised {| exc_type := ValueError; exc_msg := "no such stream" |}, w)
    end.

Definition call_close (self : methods) : M σ unit :=
  fun w =>
    let '(r, s') := close_impl self (w_self w) in
    (r, {| w_self := s'; w_files := w_files w;
           w_volatile := w_volatile w; w_calls := w_calls w |}).

(** *** [class Output] *)

Definition not_implemented : exception :=
  {| exc_type := NotImplementedError; exc_msg := EmptyString |}.

(** [def init(self, target): pass] *)
Definition init (target : Target) (s : σ) : outcome unit * σ := (Normal tt, s).

(** [def write(self, output_path, fh, entry, size=None):
       raise NotImplementedError()] *)
Definition write (output_path : string) (fh : fileobj)
    (entry : option entry_obj) (size : option Z) (s : σ) :
    outcome unit * fileobj * σ :=
  (Raised not_implemented, fh, s).

(** [def close(self): raise NotImplementedError()] *)
Definition close (s : σ) : outcome unit * σ := (Raised not_implemented, s).

(** The base class itself. *)
Definition Output : methods :=
  {| init_impl := init; write_impl := write; close_impl := close |}.

(** [with entry.open() as fh:
       self.write(output_path, fh, entry, size)] *)
Definition write_entry (self : methods) (output_path : string)
    (entry : option entry_obj) (size : option Z) : M σ unit :=
  with_as (entry_open entry)
    (fun fh => call_write self output_path fh entry size).

(** [stream = io.BytesIO(data)
     self.write(output_path, stream, entry, size)] *)
Definition write_bytes (self : methods) (output_path : string) (data : bytes)
    (entry : option entry_obj) (size : option Z) : M σ unit :=
  let* stream := BytesIO data in
  call_write self output_path stream entry size.

(** The body of the [try] in [write_volatile]; its result is the pair of
    the variables [buf] and [size] it assigns. *)
Definition volatile_try (entry : option entry_obj) (size : option Z) :
    M σ (bytes * option Z) :=
  let* p := getattr_path entry in
  let* fh := VolatileStream_new (Path p) in
  let* buf := VolatileStream_read fh in
  ret (buf, Some (size_or size (len buf))).

(** [try:
         fh = acquire.utils.VolatileStream(Path(entry.path))
         buf = fh.read()
         size = size or len(buf)
     except (OSError, PermissionError):
         buf = b''
         size = 0
     self.write_bytes(output_path, buf, entry, size)] *)
Definition write_volatile (self : methods) (output_path : string)
    (entry : option entry_obj) (size : option Z) : M σ unit :=
  let* (buf, size) :=
    try_except (volatile_try entry size)
      (fun e =>
         if except_OSError_PermissionError e
         then Some (ret ([], Some 0))
         else None) in
  write_bytes self output_path buf entry size.

End Methods.

Arguments methods : clear implicits.

(** ** A concrete output, used to run the methods

    A subclass in the way the module asks for one: it overrides [write]
    and [close] and inherits the rest.  [write] reads the stream to its
    end and keeps the bytes under [output_path]; [close] has nothing to
    release. *)

Definition closed_file : exception :=
  {| exc_type := ValueError; exc_msg := "I/O operation on closed file" |}.

Definition ListOutput_write (output_path : string) (fh : fileobj)
    (entry : option entry_obj) (size : option Z) (s : list (string * bytes)) :
    outcome unit * fileobj * list (string * bytes) :=
  if f_closed fh then (Raised closed_file, fh, s)
  else
    (Normal tt,
     {| f_data := f_data fh; f_pos := length (f_data fh); f_closed := false |},
     s ++ [(output_path, remaining fh)]).

Definition ListOutput_close (s : list (string * bytes)) :
    outcome unit * list (string * bytes) :=
  (Normal tt, s).

Definition ListOutput : methods (list (string * bytes)) unit :=
  {| init_impl := init;
     write_impl := ListOutput_write;
     close_impl := ListOutput_close |}.

(** The bytes kept under [output_path], the latest if there are several. *)
Fixpoint recorded (s : list (string * bytes)) (output_path : string) : option bytes :=
  match s with
  | [] => None
  | (p, d) :: s' =>
      match recorded s' output_path with
      | Some d' => Some d'
      | None => if decide (p = output_path) then Some d else None
      end
  end.

(** A state to start from: nothing written, no stream alive. *)
Definition start {σ} (s : σ) (volatile : string -> outcome VolatileStream) : world σ :=
  {| w_self := s; w_files := []; w_volatile := volatile; w_calls := [] |}.

Definition permission_denied : exception :=
  {| exc_type := PermissionError; exc_msg := "Permission denied" |}.

Definition no_such_file : exception :=
  {| exc_type := FileNotFoundError; exc_msg := "No such file or directory" |}.

(** A small procfs: [/proc/1/maps] cannot be read, [/proc/version] holds
    three bytes, nothing else exists. *)
Definition procfs (path : string) : outcome VolatileStream :=
  if decide (path = "/proc/1/maps") then Normal {| vs_read := Raised permission_denied |}
  else if decide (path = "/proc/version") then
    Normal {| vs_read := Normal (list_byte_of_string "6.1") |}
  else Raised no_such_file.

Definition maps_entry : entry_obj :=
  FilesystemEntry "/proc/1/maps" (Raised permission_denied).

Definition version_entry : entry_obj :=
  FilesystemEntry "/proc/version" (Normal (list_byte_of_string "6.1")).

(** A [ListOutput] with nothing written, and a bare [Output], on that
    procfs. *)
Definition on_procfs : world (list (string * bytes)) := start [] procfs.

Definition base_on_procfs : world unit := start tt procfs.

(** The run of section 8 of the specification: [init], [write_bytes],
    [write_volatile] on an entry that cannot be read, [close]. *)
Definition end_to_end : M (list (string * bytes)) unit :=
  let* _ := call_init ListOutput tt in
  let* _ := write_bytes ListOutput "a/b.txt" (list_byte_of_string "hello") None None in
  let* _ := write_volatile ListOutput "proc/1/maps" (Some maps_entry) None in
  call_close ListOutput.

(** A writer keeps what it reads: whenever its [write], called without a
    size, returns, the bytes that were left to read on the stream are
    kept under the output path.  [kept] is the view of the object that
    tells what is recorded where. *)
Definition stores_stream {σ Target} (self : methods σ Target)
    (kept : σ -> string -> option bytes) : Prop :=
  forall output_path fh entry s fh' s',
    write_impl self output_path fh entry None s = (Normal tt, fh', s') ->
    kept s' output_path = Some (remaining fh).

(** ** Properties *)

Section Properties.

Context {σ Target : Type}.
Implicit Types (self : methods σ Target) (w : world σ).
Implicit Types (entry : option entry_obj) (size : option Z).

(** What reading the volatile file at [path] does: the constructor of
    [VolatileStream] followed by [read()]. *)
Definition volatile_outcome w (path : string) : outcome bytes :=
  match w_volatile w (Path path) with
  | Normal fh => vs_read fh
  | Raised e => Raised e
  end.

Lemma world_eta w :
  {| w_self := w_self w; w_files := w_files w;
     w_volatile := w_volatile w; w_calls := w_calls w |} = w.
Proof. by destruct w. Qed.

Lemma lookup_fresh (l : list fileobj) (f : fileobj) :
  (l ++ [f]) !! length l = Some f.
Proof. by rewrite list_lookup_middle. Qed.

Lemma insert_fresh (l : list fileobj) (f f' : fileobj) :
  <[length l := f']> (l ++ [f]) = l ++ [f'].
Proof.
  rewrite insert_app_r_alt by lia.
  by rewrite Nat.sub_diag.
Qed.

Lemma alter_fresh (l : list fileobj) (f : fileobj) :
  alter fileobj_close (length l) (l ++ [f]) = l ++ [fileobj_close f].
Proof.
  rewrite alter_app_r_alt by lia.
  by rewrite Nat.sub_diag.
Qed.

(** [write_bytes] is one call of the primitive on a new stream. *)
Lemma write_bytes_run self (output_path : string) (data : bytes) entry size w :
  write_bytes self output_path data entry size w =
  let '(r, f', s') :=
    write_impl self output_path (fresh_stream data) entry size (w_self w) in
  (r, {| w_self := s'; w_files := w_files w ++ [f'];
         w_volatile := w_volatile w;
         w_calls := w_calls w ++
           [mk_call output_path (length (w_files w)) (fresh_stream data) entry size] |}).
Proof.
  unfold write_bytes, bind, BytesIO, alloc_file, call_write; simpl.
  rewrite lookup_fresh.
  destruct (write_impl self output_path (fresh_stream data) entry size (w_self w))
    as [[r f'] s'].
  by rewrite insert_fresh.
Qed.

(** [write_entry] on an entry that opens: one call of the primitive on the
    stream [open()] returned, and that stream is closed afterwards. *)
Lemma write_entry_run self (output_path : string) (o : entry_obj) (data : bytes)
    size w :
  attr_open o = Some (Normal data) ->
  write_entry self output_path (Some o) size w =
  let '(r, f', s') :=
    write_impl self output_path (fresh_stream data) (Some o) size (w_self w) in
  (r, {| w_self := s'; w_files := w_files w ++ [fileobj_close f'];
         w_volatile := w_volatile w;
         w_calls := w_calls w ++
           [mk_call output_path (length (w_files w)) (fresh_stream data) (Some o) size] |}).
Proof.
  intros Hopen.
  unfold write_entry, with_as, bind, entry_open; rewrite Hopen.
  unfold alloc_file, try_finally, call_write, file_exit; simpl.
  rewrite lookup_fresh.
  destruct (write_impl self output_path (fresh_stream data) (Some o) size (w_self w))
    as [[r f'] s']; simpl.
  by rewrite insert_fresh, alter_fresh.
Qed.

(** The [try] body of [write_volatile] on an entry that has a path. *)
Lemma volatile_try_run (o : entry_obj) (path : string) size w :
  attr_path o = Some path ->
  volatile_try (Some o) size w =
  (match volatile_outcome w path with
   | Normal buf => Normal (buf, Some (size_or size (len buf)))
   | Raised e => Raised e
   end, w).
Proof.
  intros Hpath.
  unfold volatile_try, bind, getattr_path, volatile_outcome; rewrite Hpath.
  unfold ret, VolatileStream_new, VolatileStream_read.
  destruct (w_volatile w (Path path)) as [fh|e]; [|done].
  by destruct (vs_read fh).
Qed.

Lemma write_volatile_read_ok self (output_path : string) (o : entry_obj)
    (path : string) (buf : bytes) size w :
  attr_path o = Some path ->
  volatile_outcome w path = Normal buf ->
  write_volatile self output_path (Some o) size w =
  write_bytes self output_path buf (Some o) (Some (size_or size (len buf))) w.
Proof.
  intros Hpath Hread.
  unfold write_volatile, bind at 1, try_except.
  by rewrite (volatile_try_run _ _ _ _ Hpath), Hread.
Qed.

Lemma isinstance_OSError_caught (e : exception) :
  isinstance e OSError = true -> except_OSError_PermissionError e = true.
Proof. unfold except_OSError_PermissionError. by intros ->. Qed.

Lemma write_volatile_read_fails self (output_path : string) (o : entry_obj)
    (path : string) (e : exception) size w :
  attr_path o = Some path ->
  volatile_outcome w path = Raised e ->
  except_OSError_PermissionError e = true ->
  write_volatile self output_path (Some o) size w =
  write_bytes self output_path [] (Some o) (Some 0) w.
Proof.
  intros Hpath Hread Hexc.
  unfold write_volatile, bind at 1, try_except.
  by rewrite (volatile_try_run _ _ _ _ Hpath), Hread, Hexc.
Qed.

(** The trace after [write_bytes]: the call it makes is the only new one. *)
Lemma write_bytes_calls self (output_path : string) (data : bytes) entry size w :
  w_calls (write_bytes self output_path data entry size w).2 =
  w_calls w ++
    [mk_call output_path (length (w_files w)) (fresh_stream data) entry size].
Proof.
  rewrite write_bytes_run.
  by destruct (write_impl self output_path (fresh_stream data) entry size (w_self w))
    as [[r f'] s'].
Qed.

(** The result of [write_bytes] is the result of the primitive. *)
Lemma write_bytes_result self (output_path : string) (data : bytes) entry size w :
  (write_bytes self output_path data entry size w).1 =
  (write_impl self output_path (fresh_stream data) entry size (w_self w)).1.1.
Proof.
  rewrite write_bytes_run.
  by destruct (write_impl self output_path (fresh_stream data) entry size (w_self w))
    as [[r f'] s'].
Qed.

Lemma write_bytes_self self (output_path : string) (data : bytes) entry size w :
  w_self (write_bytes self output_path data entry size w).2 =
  (write_impl self output_path (fresh_stream data) entry size (w_self w)).2.
Proof.
  rewrite write_bytes_run.
  by destruct (write_impl self output_path (fresh_stream data) entry size (w_self w))
    as [[r f'] s'].
Qed.

(** *** [init] *)

(** C8: the [init] of the base class does nothing: on every target it
    returns [None] and leaves the whole state as it was, the attributes of
    the object, the streams and the trace of writes (so no write is made). *)
Theorem init_is_noop (target : Target) w :
  call_init (Output (σ:=σ)) target w = (Normal tt, w).
Proof.
  unfold call_init; simpl.
  by rewrite world_eta.
Qed.

(** *** [write_bytes] *)

(** C10: [write_bytes] hands its [size] argument to [write] as it got it.
    The one call it adds to the trace carries the caller's [size], and the
    primitive runs with that same [size]; with the hint left out [write]
    gets [None], never [len(data)]. *)
Theorem write_bytes_forwards_size self (output_path : string) (data : bytes)
    entry size w :
  w_calls (write_bytes self output_path data entry size w).2 =
    w_calls w ++
      [mk_call output_path (length (w_files w)) (fresh_stream data) entry size] /\
  (write_bytes self output_path data entry size w).1 =
    (write_impl self output_path (fresh_stream data) entry size (w_self w)).1.1 /\
  map wc_size (w_calls (write_bytes self output_path data entry None w).2) =
    map wc_size (w_calls w) ++ [None].
Proof.
  split; [apply write_bytes_calls|].
  split; [apply write_bytes_result|].
  by rewrite write_bytes_calls, map_app.
Qed.

(** C7: for every buffer [b], the empty one included, [write_bytes] makes
    one call of [write] under [output_path] on a new stream over exactly
    [b] (position 0, open, [len(b)] bytes to read), and its result is the
    result of that call: it adds no failure of its own.  So with a writer
    whose [write], called without a size, keeps what it reads from the
    stream under the path, a call that returns leaves [b] itself, of
    length [len(b)], under [output_path]. *)
Theorem write_bytes_records_buffer self (kept : σ -> string -> option bytes)
    (output_path : string) (b : bytes) entry w :
  stores_stream self kept ->
  (forall size,
     w_calls (write_bytes self output_path b entry size w).2 =
       w_calls w ++
         [mk_call output_path (length (w_files w)) (fresh_stream b) entry size] /\
     (write_bytes self output_path b entry size w).1 =
       (write_impl self output_path (fresh_stream b) entry size (w_self w)).1.1) /\
  remaining (fresh_stream b) = b /\
  f_closed (fresh_stream b) = false /\
  ((write_bytes self output_path b entry None w).1 = Normal tt ->
   exists d,
     kept (w_self (write_bytes self output_path b entry None w).2) output_path = Some d /\
     d = b /\ len d = len b).
Proof.
  intros Hstores.
  split; [intros size; split; [apply write_bytes_calls | apply write_bytes_result]|].
  split; [done|]. split; [done|].
  rewrite write_bytes_result, write_bytes_self.
  destruct (write_impl self output_path (fresh_stream b) entry None (w_self w))
    as [[r f'] s'] eqn:Hw; simpl.
  intros ->. exists b.
  split; [|done].
  by rewrite (Hstores _ _ _ _ _ _ Hw).
Qed.

(** *** [write_volatile] *)

(** C1, as amended: on a source that reads as [buf], [write_volatile]
    delegates to [write_bytes] with [buf] and the size [size or len(buf)]:
    the length read when the hint is absent or [0], and the caller's hint
    whenever that is a non-zero integer. *)
Theorem write_volatile_size_hint_or_length self (output_path : string)
    (o : entry_obj) (path : string) (buf : bytes) size w :
  attr_path o = Some path ->
  volatile_outcome w path = Normal buf ->
  write_volatile self output_path (Some o) size w =
    write_bytes self output_path buf (Some o) (Some (size_or size (len buf))) w /\
  w_calls (write_volatile self output_path (Some o) size w).2 =
    w_calls w ++
      [mk_call output_path (length (w_files w)) (fresh_stream buf) (Some o)
         (Some (size_or size (len buf)))] /\
  (size = None \/ size = Some 0 -> size_or size (len buf) = len buf) /\
  (forall n, size = Some n -> n <> 0 -> size_or size (len buf) = n).
Proof.
  intros Hpath Hread.
  rewrite (write_volatile_read_ok _ _ _ _ _ _ _ Hpath Hread).
  split; [done|]. split; [apply write_bytes_calls|].
  split.
  - by intros [-> | ->].
  - intros n -> Hn. simpl.
    by destruct (Z.eqb_spec n 0).
Qed.



(** C9: with [entry = None] the access [entry.path] raises an
    [AttributeError], which the [except (OSError, PermissionError)] clause
    does not match: [write_volatile] raises it and the state is untouched,
    so [write] is not called and nothing is recorded. *)
Theorem write_volatile_none_raises self (output_path : string) size w :
  write_volatile self output_path None size w =
    (Raised (no_attribute "path"), w) /\
  exc_type (no_attribute "path") = AttributeError /\
  except_OSError_PermissionError (no_attribute "path") = false.
Proof. done. Qed.

(** *** [write_entry] *)

(** C4: when [entry.open()] succeeds, the stream it returned is closed
    when [write_entry] is left, whatever the call of [write] did: the
    result of [write_entry] is the result of [write], a normal return or
    an exception, and in both cases the stream is closed in the final
    state. *)
Theorem write_entry_closes_stream self (output_path : string) (o : entry_obj)
    (data : bytes) size w :
  attr_open o = Some (Normal data) ->
  (entry_open (Some o) w).1 = Normal (length (w_files w)) /\
  (write_entry self output_path (Some o) size w).1 =
    (write_impl self output_path (fresh_stream data) (Some o) size (w_self w)).1.1 /\
  exists f,
    w_files (write_entry self output_path (Some o) size w).2 !! length (w_files w)
      = Some f /\
    f_closed f = true.
Proof.
  intros Hopen.
  split; [by unfold entry_open; rewrite Hopen|].
  rewrite (write_entry_run _ _ _ _ _ _ Hopen).
  destruct (write_impl self output_path (fresh_stream data) (Some o) size (w_self w))
    as [[r f'] s']; simpl.
  split; [done|].
  exists (fileobj_close f').
  by rewrite list_lookup_middle.
Qed.

(** C5: when [entry.open()] raises, [write_entry] raises the same
    exception and leaves the state as it was: the exception is not caught,
    no empty buffer is written in its place, and [write] is not called. *)
Theorem write_entry_open_raises self (output_path : string) entry
    (e : exception) size w :
  (entry_open entry w).1 = Raised e ->
  write_entry self output_path entry size w = (Raised e, w).
Proof.
  unfold write_entry, with_as, bind, entry_open.
  destruct entry as [o|]; simpl.
  - destruct (attr_open o) as [[data|e']|]; simpl; [done| |]; by intros [= ->].
  - by intros [= ->].
Qed.

(** *** Writing after [close] *)

(** C6, as amended: the class keeps no closed state and has no
    [WriterClosed] error.  After [close()], [write_bytes] still calls the
    [write] of the object, on the attributes [close] left, and returns what
    it returns.  On the base class itself [close()] raises
    [NotImplementedError] and so does every write operation that gets as
    far as [write]; none of the four changes the attributes of the
    object, so nothing is recorded. *)
Theorem write_after_close_is_writer_defined self (output_path : string)
    (data : bytes) entry size w :
  let w1 := (call_close self w).2 in
  let b1 := (call_close (Output (σ:=σ) (Target:=Target)) w).2 in
  (w_self w1 = (close_impl self (w_self w)).2 /\
   (write_bytes self output_path data entry size w1).1 =
     (write_impl self output_path (fresh_stream data) entry size (w_self w1)).1.1 /\
   w_calls (write_bytes self output_path data entry size w1).2 =
     w_calls w ++
       [mk_call output_path (length (w_files w)) (fresh_stream data) entry size]) /\
  call_close (Output (σ:=σ) (Target:=Target)) w = (Raised not_implemented, w) /\
  class_name (exc_type not_implemented) = "NotImplementedError" /\
  (forall fh,
     w_self (call_write (@Output σ Target) output_path fh entry size b1).2 = w_self w /\
     (is_Some (w_files w !! fh) ->
      (call_write (@Output σ Target) output_path fh entry size b1).1 = Raised not_implemented)) /\
  (w_self (write_bytes (@Output σ Target) output_path data entry size b1).2 = w_self w /\
   (write_bytes (@Output σ Target) output_path data entry size b1).1 = Raised not_implemented) /\
  (w_self (write_entry (@Output σ Target) output_path entry size b1).2 = w_self w /\
   (forall o d, entry = Some o -> attr_open o = Some (Normal d) ->
      (write_entry (@Output σ Target) output_path entry size b1).1 = Raised not_implemented)) /\
  (w_self (write_volatile (@Output σ Target) output_path entry size b1).2 = w_self w /\
   (forall o path, entry = Some o -> attr_path o = Some path ->
      (exists buf, volatile_outcome w path = Normal buf) \/
      (exists e, volatile_outcome w path = Raised e /\ isinstance e OSError = true) ->
      (write_volatile (@Output σ Target) output_path entry size b1).1 = Raised not_implemented)).
Proof.
  assert (Hclose : call_close (Output (σ:=σ) (Target:=Target)) w = (Raised not_implemented, w)).
  { unfold call_close; simpl. by rewrite world_eta. }
  intros w1 b1. subst b1. rewrite Hclose; simpl.
  split.
  { subst w1. rewrite write_bytes_calls, write_bytes_result.
    unfold call_close.
    by destruct (close_impl self (w_self w)) as [r s1]. }
  split; [done|]. split; [done|].
  split.
  { intros fh. unfold call_write.
    destruct (w_files w !! fh) as [f|]; simpl; [done|].
    split; [done|]. by intros [? ?]. }
  split.
  { by rewrite write_bytes_self, write_bytes_result. }
  split.
  { split.
    - destruct entry as [o|]; [|done].
      destruct (attr_open o) as [[d|e]|] eqn:Hopen.
      + by rewrite (write_entry_run _ _ _ _ _ _ Hopen).
      + by unfold write_entry, with_as, bind, entry_open; rewrite Hopen.
      + by unfold write_entry, with_as, bind, entry_open; rewrite Hopen.
    - intros o d -> Hopen.
      by rewrite (write_entry_run _ _ _ _ _ _ Hopen). }
  split.
  - destruct entry as [o|]; [|done].
    destruct (attr_path o) as [path|] eqn:Hpath.
    + destruct (volatile_outcome w path) as [buf|e] eqn:Hread.
      * rewrite (write_volatile_read_ok _ _ _ _ _ _ _ Hpath Hread).
        by rewrite write_bytes_self.
      * destruct (except_OSError_PermissionError e) eqn:Hexc.
        -- rewrite (write_volatile_read_fails _ _ _ _ _ _ _ Hpath Hread Hexc).
           by rewrite write_bytes_self.
        -- unfold write_volatile, bind at 1, try_except.
           by rewrite (volatile_try_run _ _ _ _ Hpath), Hread, Hexc.
    + by unfold write_volatile, bind, try_except, volatile_try, bind,
        getattr_path; rewrite Hpath.
  - intros o path -> Hpath [[buf Hread] | [e [Hread Hos]]].
    + rewrite (write_volatile_read_ok _ _ _ _ _ _ _ Hpath Hread).
      by rewrite write_bytes_result.
    + apply isinstance_OSError_caught in Hos.
      rewrite (write_volatile_read_fails _ _ _ _ _ _ _ Hpath Hread Hos).
      by rewrite write_bytes_result.
Qed.

End Properties.

(** ** The methods on concrete inputs *)

Example end_to_end_records :
  let '(r, w) := end_to_end on_procfs in
  r = Normal tt /\
  w_self w = [("a/b.txt", list_byte_of_string "hello"); ("proc/1/maps", [])] /\
  map wc_size (w_calls w) = [None; Some 0].
Proof. vm_compute. auto. Qed.

Lemma recorded_snoc (s : list (string * bytes)) (output_path : string) (d : bytes) :
  recorded (s ++ [(output_path, d)]) output_path = Some d.
Proof.
  induction s as [|[q e] s IH]; simpl.
  - by rewrite decide_True.
  - by rewrite IH.
Qed.

Lemma ListOutput_stores_stream : stores_stream ListOutput recorded.
Proof.
  intros output_path fh entry s fh' s'; simpl.
  unfold ListOutput_write.
  destruct (f_closed fh); [done|].
  intros [= <- <-]. apply recorded_snoc.
Qed.

(** C1, the claim as written fails: [/proc/version] reads as three bytes,
    the caller's hint is [10], and [write] is called with size [10], not
    with the [3] bytes read. *)
Lemma write_volatile_keeps_nonzero_hint :
  let w0 := on_procfs in
  let buf := list_byte_of_string "6.1" in
  attr_path version_entry = Some "/proc/version" /\
  volatile_outcome w0 "/proc/version" = Normal buf /\
  len buf = 3 /\ len buf <> 10 /\
  map wc_size
    (w_calls (write_volatile ListOutput "proc/version" (Some version_entry) (Some 10) w0).2)
    = [Some 10] /\
  write_volatile ListOutput "proc/version" (Some version_entry) (Some 10) w0 <>
    write_bytes ListOutput "proc/version" buf (Some version_entry) (Some (len buf)) w0.
Proof.
  repeat split; try reflexivity; try discriminate.
Qed.

Lemma write_volatile_size_hint_or_length_witness :
  attr_path version_entry = Some "/proc/version" /\
  volatile_outcome on_procfs "/proc/version" =
    Normal (list_byte_of_string "6.1") /\
  w_calls
    (write_volatile ListOutput "proc/version" (Some version_entry) None
       on_procfs).2 =
    [mk_call "proc/version" 0 (fresh_stream (list_byte_of_string "6.1"))
       (Some version_entry) (Some 3)].
Proof.
  split; [reflexivity|]. split; [reflexivity|].
  exact (proj1 (proj2
    (write_volatile_size_hint_or_length ListOutput "proc/version" version_entry
       "/proc/version" (list_byte_of_string "6.1") None on_procfs
       eq_refl eq_refl))).
Defined.



Lemma write_entry_closes_stream_witness :
  attr_open version_entry = Some (Normal (list_byte_of_string "6.1")) /\
  (write_entry (@Output unit unit) "proc/version" (Some version_entry) None
     base_on_procfs).1 = Raised not_implemented /\
  exists f,
    w_files
      (write_entry (@Output unit unit) "proc/version" (Some version_entry) None
         base_on_procfs).2 !! 0%nat = Some f /\
    f_closed f = true.
Proof.
  split; [reflexivity|].
  exact (proj2
    (write_entry_closes_stream (@Output unit unit) "proc/version" version_entry
       (list_byte_of_string "6.1") None base_on_procfs eq_refl)).
Defined.

Lemma write_entry_open_raises_witness :
  (entry_open (Some maps_entry) on_procfs).1 = Raised permission_denied /\
  write_entry ListOutput "proc/1/maps" (Some maps_entry) None on_procfs =
    (Raised permission_denied, on_procfs).
Proof.
  split; [reflexivity|].
  exact (write_entry_open_raises ListOutput "proc/1/maps" (Some maps_entry)
           permission_denied None on_procfs eq_refl).
Defined.

Lemma write_bytes_records_buffer_witness :
  stores_stream ListOutput recorded /\
  exists d,
    recorded
      (w_self
         (write_bytes ListOutput "a/b.txt" (list_byte_of_string "hello") None None
            on_procfs).2) "a/b.txt" = Some d /\
    d = list_byte_of_string "hello" /\ len d = 5.
Proof.
  split; [exact ListOutput_stores_stream|].
  destruct (write_bytes_records_buffer ListOutput recorded "a/b.txt"
              (list_byte_of_string "hello") None on_procfs
              ListOutput_stores_stream) as (_ & _ & _ & Hkept).
  destruct (Hkept eq_refl) as (d & Hd & -> & _).
  exists (list_byte_of_string "hello").
  split; [exact Hd|]. split; reflexivity.
Defined.

(** C6, the claim as written fails.  On the base class a write after
    [close()] raises [NotImplementedError], which is not [WriterClosed];
    and on a writer whose [close()] returns, [write_bytes] after it
    returns normally and the artifact is recorded. *)
Lemma write_after_close_is_accepted :
  let hello := list_byte_of_string "hello" in
  let b1 := (call_close (@Output unit unit) base_on_procfs).2 in
  let v1 := (call_close ListOutput on_procfs).2 in
  (exists e,
     (write_bytes (@Output unit unit) "a/b.txt" hello None None b1).1 = Raised e /\
     class_name (exc_type e) = "NotImplementedError" /\
     class_name (exc_type e) <> "WriterClosed") /\
  (call_close ListOutput on_procfs).1 = Normal tt /\
  (write_bytes ListOutput "a/b.txt" hello None None v1).1 = Normal tt /\
  recorded (w_self (write_bytes ListOutput "a/b.txt" hello None None v1).2) "a/b.txt"
    = Some hello.
Proof.
  split.
  - exists not_implemented. repeat split; discriminate.
  - repeat split.
Qed.

Lemma write_after_close_is_writer_defined_witness :
  (write_entry (@Output unit unit) "proc/version" (Some version_entry) None
     (call_close (@Output unit unit) base_on_procfs).2).1 =
    Raised not_implemented /\
  (write_volatile (@Output unit unit) "proc/1/maps" (Some maps_entry) None
     (call_close (@Output unit unit) base_on_procfs).2).1 =
    Raised not_implemented.
Proof.
  destruct (write_after_close_is_writer_defined (@Output unit unit)
              "proc/version" [] (Some version_entry) None base_on_procfs)
    as (_ & _ & _ & _ & _ & [_ Hentry] & _).
  destruct (write_after_close_is_writer_defined (@Output unit unit)
              "proc/1/maps" [] (Some maps_entry) None base_on_procfs)
    as (_ & _ & _ & _ & _ & _ & [_ Hvol]).
  split.
  - exact (Hentry version_entry (list_byte_of_string "6.1") eq_refl eq_refl).
  - exact (Hvol maps_entry "/proc/1/maps" eq_refl eq_refl
             (or_intror (ex_intro _ permission_denied (conj eq_refl eq_refl)))).
Defined.

(** ** Further properties of the methods *)

Section Further.

Context {σ Target : Type}.
Implicit Types (self : methods σ Target) (w : world σ).
Implicit Types (entry : option entry_obj) (size : option Z).

(** The [try] body of [write_volatile] only reads: it leaves the state as
    it found it. *)
Lemma volatile_try_state entry size w : (volatile_try entry size w).2 = w.
Proof.
  unfold volatile_try, bind, getattr_path, VolatileStream_new,
    VolatileStream_read, ret, raise.
  destruct entry as [o|]; [|done].
  destruct (attr_path o) as [path|]; [|done].
  destruct (w_volatile w (Path path)) as [fh|e]; [|done].
  by destruct (vs_read fh).
Qed.

(** When the [try] body returns, the size it assigns is [size or len(buf)]. *)
Lemma volatile_try_normal entry size w (buf : bytes) (sz : option Z) :
  (volatile_try entry size w).1 = Normal (buf, sz) ->
  sz = Some (size_or size (len buf)).
Proof.
  unfold volatile_try, bind, getattr_path, VolatileStream_new,
    VolatileStream_read, ret, raise.
  destruct entry as [o|]; [|done].
  destruct (attr_path o) as [path|]; [|done].
  destruct (w_volatile w (Path path)) as [fh|e]; [|done].
  destruct (vs_read fh); [|done].
  by intros [= <- <-].
Qed.

(** [write_volatile] by the three ways its [try] statement can end. *)
Lemma write_volatile_run self (output_path : string) entry size w :
  write_volatile self output_path entry size w =
  match (volatile_try entry size w).1 with
  | Normal (buf, sz) => write_bytes self output_path buf entry sz w
  | Raised e =>
      if except_OSError_PermissionError e
      then write_bytes self output_path [] entry (Some 0) w
      else (Raised e, w)
  end.
Proof.
  pose proof (volatile_try_state entry size w) as Hstate.
  unfold write_volatile, bind at 1, try_except.
  destruct (volatile_try entry size w) as [[[buf sz]|e] w']; simpl in *; subst w'.
  - done.
  - by destruct (except_OSError_PermissionError e).
Qed.

(** A class that derives from [PermissionError] derives from [OSError]. *)
Lemma PermissionError_is_OSError (c : exc_class) :
  PermissionError ∈ mro c -> OSError ∈ mro c.
Proof.
  induction c as [| | | | | | | | |name base IH]; simpl;
    try (apply (bool_decide_unpack _); vm_compute; exact I).
  rewrite !elem_of_cons.
  intros [Heq | Hbase]; [discriminate|].
  right. by apply IH.
Qed.

(** An exception that is no [OSError] passes the except clause. *)
Lemma not_OSError_not_caught (e : exception) :
  isinstance e OSError = false -> except_OSError_PermissionError e = false.
Proof.
  unfold except_OSError_PermissionError, isinstance, issubclass.
  intros Hos; rewrite Hos; simpl.
  apply bool_decide_eq_false. intros Hperm.
  apply PermissionError_is_OSError in Hperm.
  by apply bool_decide_eq_false in Hos.
Qed.

(** The except clause of [write_volatile] catches the instances of
    [OSError] and nothing else: naming [PermissionError] beside it adds no
    exception to those caught. *)
Theorem except_clause_is_OSError (e : exception) :
  except_OSError_PermissionError e = isinstance e OSError.
Proof.
  destruct (isinstance e OSError) eqn:Hos.
  - by apply isinstance_OSError_caught.
  - by apply not_OSError_not_caught.
Qed.

(** An exception raised inside the [try] of [write_volatile] that is not an
    [OSError] is not caught: [write_volatile] raises it, the state is as
    before, and [write] is not called. *)
Theorem write_volatile_other_error_propagates self (output_path : string)
    entry (e : exception) size w :
  (volatile_try entry size w).1 = Raised e ->
  isinstance e OSError = false ->
  write_volatile self output_path entry size w = (Raised e, w).
Proof.
  intros Htry Hos.
  rewrite write_volatile_run, Htry.
  by rewrite (not_OSError_not_caught _ Hos).
Qed.

(** [write_volatile] calls [write] at most once, and never without a
    size.  Either it raises an exception that is no [OSError], with the
    state as before and no call made; or it is one [write_bytes], and the
    one call added to the trace carries an integer size, never [None]. *)
Theorem write_volatile_at_most_one_write self (output_path : string) entry size w :
  (exists e,
     isinstance e OSError = false /\
     write_volatile self output_path entry size w = (Raised e, w)) \/
  (exists (buf : bytes) (n : Z),
     write_volatile self output_path entry size w =
       write_bytes self output_path buf entry (Some n) w /\
     w_calls (write_volatile self output_path entry size w).2 =
       w_calls w ++
         [mk_call output_path (length (w_files w)) (fresh_stream buf) entry (Some n)]).
Proof.
  rewrite write_volatile_run.
  destruct (volatile_try entry size w).1 as [[buf sz]|e] eqn:Htry.
  - right. apply volatile_try_normal in Htry as ->.
    exists buf, (size_or size (len buf)).
    split; [done | apply write_bytes_calls].
  - destruct (except_OSError_PermissionError e) eqn:Hexc.
    + right. exists [], 0.
      split; [done | apply write_bytes_calls].
    + left. exists e. split; [|done].
      destruct (isinstance e OSError) eqn:Hos; [|done].
      apply isinstance_OSError_caught in Hos. congruence.
Qed.

(** A call of [write] that [write_volatile] makes with size [0] is made on
    an empty stream: size [0] never goes with content that was read. *)
Theorem write_volatile_zero_size_means_empty self (output_path : string)
    entry size w (c : write_call) :
  w_calls (write_volatile self output_path entry size w).2 = w_calls w ++ [c] ->
  wc_size c = Some 0 ->
  wc_stream c = fresh_stream [].
Proof.
  rewrite write_volatile_run.
  destruct (volatile_try entry size w).1 as [[buf sz]|e] eqn:Htry.
  - apply volatile_try_normal in Htry as ->.
    rewrite write_bytes_calls.
    intros Hc%app_inj_tail; destruct Hc as [_ <-]; simpl.
    intros [= Hsize]. revert Hsize.
    destruct size as [s|]; simpl.
    + destruct (Z.eqb_spec s 0); [|done].
      unfold len. by destruct buf.
    + unfold len. by destruct buf.
  - destruct (except_OSError_PermissionError e).
    + rewrite write_bytes_calls.
      by intros Hc%app_inj_tail; destruct Hc as [_ <-].
    + simpl. intros Hc. apply (f_equal length) in Hc.
      rewrite length_app in Hc. simpl in Hc. lia.
Qed.

(** The [try] of [write_volatile] guards the read only.  When the call of
    [write] it makes raises, be it an [OSError] such as a full disk,
    [write_volatile] raises that exception: the failure to write is not
    turned into an empty record, the call that failed is the only one in
    the trace, and the attributes are as that call left them.  The call is
    the one on [buf'] with size [size'], the bytes read with
    [size or len(buf')], or the empty buffer with [0] after a read that
    raised an [OSError]. *)
Theorem write_volatile_write_error_propagates self (output_path : string)
    (o : entry_obj) (path : string) (buf' : bytes) (size' : Z)
    (e : exception) size w :
  attr_path o = Some path ->
  (volatile_outcome w path = Normal buf' /\ size' = size_or size (len buf')) \/
  (exists e', volatile_outcome w path = Raised e' /\ isinstance e' OSError = true) /\
    buf' = [] /\ size' = 0 ->
  (write_impl self output_path (fresh_stream buf') (Some o) (Some size') (w_self w)).1.1
    = Raised e ->
  (write_volatile self output_path (Some o) size w).1 = Raised e /\
  w_calls (write_volatile self output_path (Some o) size w).2 =
    w_calls w ++
      [mk_call output_path (length (w_files w)) (fresh_stream buf') (Some o)
         (Some size')] /\
  w_self (write_volatile self output_path (Some o) size w).2 =
    (write_impl self output_path (fresh_stream buf') (Some o) (Some size') (w_self w)).2.
Proof.
  intros Hpath Hread Hwrite.
  assert (Hrun : write_volatile self output_path (Some o) size w =
                 write_bytes self output_path buf' (Some o) (Some size') w).
  { destruct Hread as [[Hread ->] | [[e' [Hread Hos]] [-> ->]]].
    - apply (write_volatile_read_ok _ _ _ _ _ _ _ Hpath Hread).
    - apply isinstance_OSError_caught in Hos.
      apply (write_volatile_read_fails _ _ _ _ _ _ _ Hpath Hread Hos). }
  rewrite Hrun.
  split; [by rewrite write_bytes_result|].
  split; [apply write_bytes_calls | apply write_bytes_self].
Qed.

(** With no hint, or hint [0], a source that reads as empty and a source
    that cannot be read give the same call of [write]: the result, the
    attributes of the object, the streams and the trace agree. *)
Theorem write_volatile_empty_like_unreadable self (output_path : string)
    (o : entry_obj) (path : string) (e : exception) size
    (s : σ) (files : list fileobj) (calls : list write_call)
    (v1 v2 : string -> outcome VolatileStream) :
  attr_path o = Some path ->
  size = None \/ size = Some 0 ->
  volatile_outcome (mk_world s files v1 calls) path = Normal [] ->
  volatile_outcome (mk_world s files v2 calls) path = Raised e ->
  isinstance e OSError = true ->
  let r1 := write_volatile self output_path (Some o) size (mk_world s files v1 calls) in
  let r2 := write_volatile self output_path (Some o) size (mk_world s files v2 calls) in
  r1.1 = r2.1 /\ w_self r1.2 = w_self r2.2 /\
  w_files r1.2 = w_files r2.2 /\ w_calls r1.2 = w_calls r2.2.
Proof.
  intros Hpath Hsize Hempty Hfail Hos r1 r2; subst r1 r2.
  apply isinstance_OSError_caught in Hos.
  rewrite (write_volatile_read_ok _ _ _ _ _ _ _ Hpath Hempty).
  rewrite (write_volatile_read_fails _ _ _ _ _ _ _ Hpath Hfail Hos).
  assert (Hzero : size_or size (len []) = 0) by (by destruct Hsize as [-> | ->]).
  rewrite Hzero, !write_bytes_run; simpl.
  by destruct (write_impl self output_path (fresh_stream []) (Some o) (Some 0) s)
    as [[r f'] s'].
Qed.

(** *** [write_entry] *)

(** [write_entry] calls [write] at most once.  Either [entry.open()]
    raises, and [write_entry] raises the same with the state as before; or
    the entry opens over its content [data], exactly one call is added to
    the trace, on a new stream over [data] and with [entry] and [size] as
    the caller gave them, and the streams that were alive are as before,
    with one more: the stream as [write] left it, closed. *)
Theorem write_entry_at_most_one_write self (output_path : string) entry size w :
  (exists e,
     (entry_open entry w).1 = Raised e /\
     write_entry self output_path entry size w = (Raised e, w)) \/
  (exists (o : entry_obj) (data : bytes) (f' : fileobj),
     entry = Some o /\ attr_open o = Some (Normal data) /\
     w_calls (write_entry self output_path entry size w).2 =
       w_calls w ++
         [mk_call output_path (length (w_files w)) (fresh_stream data) entry size] /\
     f' = fileobj_close
            (write_impl self output_path (fresh_stream data) entry size (w_self w)).1.2 /\
     w_files (write_entry self output_path entry size w).2 = w_files w ++ [f'] /\
     f_closed f' = true).
Proof.
  destruct entry as [o|].
  - destruct (attr_open o) as [[data|e]|] eqn:Hopen.
    + right. rewrite (write_entry_run _ _ _ _ _ _ Hopen).
      destruct (write_impl self output_path (fresh_stream data) (Some o) size (w_self w))
        as [[r f'] s'] eqn:Hwrite.
      exists o, data, (fileobj_close f'); simpl.
      rewrite ?Hwrite. repeat split; done.
    + left. exists e.
      by unfold write_entry, with_as, bind, entry_open; rewrite Hopen.
    + left. exists (no_attribute "open").
      by unfold write_entry, with_as, bind, entry_open; rewrite Hopen.
  - left. by exists (no_attribute "open").
Qed.

(** For the writer, [write_entry] on an entry that opens over [data] is
    [write_bytes] with [data]: the same call of [write], the same result,
    the same attributes afterwards.  The one difference is that
    [write_entry] closes the stream and [write_bytes] leaves it as [write]
    left it. *)
Theorem write_entry_like_write_bytes self (output_path : string) (o : entry_obj)
    (data : bytes) size w :
  attr_open o = Some (Normal data) ->
  let r1 := write_entry self output_path (Some o) size w in
  let r2 := write_bytes self output_path data (Some o) size w in
  r1.1 = r2.1 /\ w_self r1.2 = w_self r2.2 /\ w_calls r1.2 = w_calls r2.2 /\
  w_files r1.2 = alter fileobj_close (length (w_files w)) (w_files r2.2).
Proof.
  intros Hopen r1 r2; subst r1 r2.
  rewrite (write_entry_run _ _ _ _ _ _ Hopen), write_bytes_run.
  destruct (write_impl self output_path (fresh_stream data) (Some o) size (w_self w))
    as [[r f'] s']; simpl.
  by rewrite alter_fresh.
Qed.

(** *** The base class *)

(** On an [Output] that is not subclassed no write operation returns:
    [write_bytes], [write_entry] and [write_volatile] raise on every input
    and from every state. *)
Theorem base_output_never_returns (output_path : string) (data : bytes)
    entry size w :
  (exists e, (write_bytes (@Output σ Target) output_path data entry size w).1 = Raised e) /\
  (exists e, (write_entry (@Output σ Target) output_path entry size w).1 = Raised e) /\
  (exists e, (write_volatile (@Output σ Target) output_path entry size w).1 = Raised e).
Proof.
  assert (Hbytes : forall d sz,
    (write_bytes (@Output σ Target) output_path d entry sz w).1 = Raised not_implemented).
  { intros d sz. by rewrite write_bytes_result. }
  split; [by eexists|].
  split.
  - destruct entry as [o|]; [|by eexists].
    destruct (attr_open o) as [[d|e]|] eqn:Hopen.
    + rewrite (write_entry_run _ _ _ _ _ _ Hopen). by eexists.
    + unfold write_entry, with_as, bind, entry_open; rewrite Hopen. by eexists.
    + unfold write_entry, with_as, bind, entry_open; rewrite Hopen. by eexists.
  - rewrite write_volatile_run.
    destruct (volatile_try entry size w).1 as [[buf sz]|e].
    + rewrite Hbytes. by eexists.
    + destruct (except_OSError_PermissionError e); [|by eexists].
      rewrite Hbytes. by eexists.
Qed.

End Further.

(** ** The further properties on concrete inputs *)

Lemma write_volatile_other_error_propagates_witness :
  (volatile_try (Some version_entry) None
     (start (σ:=list (string * bytes)) [] (fun _ => Raised closed_file))).1 =
    Raised closed_file /\
  isinstance closed_file OSError = false /\
  write_volatile ListOutput "proc/version" (Some version_entry) None
    (start [] (fun _ => Raised closed_file)) =
  (Raised closed_file, start [] (fun _ => Raised closed_file)).
Proof.
  split; [reflexivity|]. split; [reflexivity|].
  exact (write_volatile_other_error_propagates ListOutput "proc/version"
           (Some version_entry) closed_file None
           (start [] (fun _ => Raised closed_file)) eq_refl eq_refl).
Defined.

Lemma write_volatile_zero_size_means_empty_witness :
  w_calls (write_volatile ListOutput "proc/1/maps" (Some maps_entry) (Some 4096)
             on_procfs).2 =
    w_calls on_procfs ++
      [mk_call "proc/1/maps" 0 (fresh_stream []) (Some maps_entry) (Some 0)] /\
  wc_stream (mk_call "proc/1/maps" 0 (fresh_stream []) (Some maps_entry) (Some 0)) =
    fresh_stream [].
Proof.
  split; [reflexivity|].
  exact (write_volatile_zero_size_means_empty ListOutput "proc/1/maps"
           (Some maps_entry) (Some 4096) on_procfs
           (mk_call "proc/1/maps" 0 (fresh_stream []) (Some maps_entry) (Some 0))
           eq_refl eq_refl).
Defined.

Lemma write_volatile_write_error_propagates_witness :
  let full := {| exc_type := OSError; exc_msg := "No space left on device" |} in
  let PickyOutput : methods (list (string * bytes)) unit :=
    {| init_impl := init;
       write_impl := fun output_path fh entry size s =>
         match remaining fh with
         | [] => ListOutput_write output_path fh entry size s
         | _ :: _ => (Raised full, fh, s)
         end;
       close_impl := ListOutput_close |} in
  isinstance full OSError = true /\
  volatile_outcome on_procfs "/proc/version" = Normal (list_byte_of_string "6.1") /\
  (write_volatile PickyOutput "proc/version" (Some version_entry) None on_procfs).1 =
    Raised full /\
  w_calls (write_volatile PickyOutput "proc/version" (Some version_entry) None
             on_procfs).2 =
    [mk_call "proc/version" 0 (fresh_stream (list_byte_of_string "6.1"))
       (Some version_entry) (Some 3)].
Proof.
  intros full PickyOutput.
  split; [reflexivity|]. split; [reflexivity|].
  destruct (write_volatile_write_error_propagates PickyOutput "proc/version"
              version_entry "/proc/version" (list_byte_of_string "6.1") 3 full None
              on_procfs eq_refl (or_introl (conj eq_refl eq_refl)) eq_refl)
    as (Hres & Hcalls & _).
  split; [exact Hres | exact Hcalls].
Defined.

Lemma write_volatile_empty_like_unreadable_witness :
  let v1 : string -> outcome VolatileStream :=
    fun _ => Normal {| vs_read := Normal [] |} in
  (write_volatile ListOutput "proc/1/maps" (Some maps_entry) None
     (mk_world [] [] v1 [])).1 =
  (write_volatile ListOutput "proc/1/maps" (Some maps_entry) None
     (mk_world [] [] procfs [])).1 /\
  w_self (write_volatile ListOutput "proc/1/maps" (Some maps_entry) None
            (mk_world [] [] v1 [])).2 =
  w_self (write_volatile ListOutput "proc/1/maps" (Some maps_entry) None
            (mk_world [] [] procfs [])).2.
Proof.
  intros v1.
  destruct (write_volatile_empty_like_unreadable ListOutput "proc/1/maps"
              maps_entry "/proc/1/maps" permission_denied None [] [] [] v1 procfs
              eq_refl (or_introl eq_refl) eq_refl eq_refl eq_refl)
    as (Hres & Hself & _).
  split; [exact Hres | exact Hself].
Defined.

Lemma write_entry_like_write_bytes_witness :
  attr_open version_entry = Some (Normal (list_byte_of_string "6.1")) /\
  w_self (write_entry ListOutput "proc/version" (Some version_entry) None on_procfs).2 =
  w_self (write_bytes ListOutput "proc/version" (list_byte_of_string "6.1")
            (Some version_entry) None on_procfs).2.
Proof.
  split; [reflexivity|].
  exact (proj1 (proj2
    (write_entry_like_write_bytes ListOutput "proc/version" version_entry
       (list_byte_of_string "6.1") None on_procfs eq_refl))).
Defined.
